(** * Notes backend (FastAPI + SQLAlchemy + SQLite): model of [src/api/main.py]

    The five CRUD handlers of the notes service are embedded as pure
    functions over an explicit table state.  Every handler takes the
    reading of [datetime.utcnow()] it performs as an argument, receives the
    current table and returns the HTTP outcome together with the table
    after the request.  Validation of the body and of the path parameter,
    which the framework runs on the handler's annotated parameters before
    its body, is the first step of each function.

    Timestamps and ids are integers.  The two failures of the driver that
    a request can provoke are part of the model: a string holding a
    surrogate code point cannot be encoded for the engine, and an id
    beyond the engine's 64-bit range cannot be bound to a query; either
    one ends the request in an internal error with nothing written.  A
    committed row reads back as written. *)

From Stdlib Require Import ZArith NArith List Bool Lia Sorted Permutation.
From Stdlib Require Import String Ascii.
Import ListNotations.
Open Scope Z_scope.

(** ** Python strings *)

(** A Python [str] is a sequence of Unicode code points; a JSON escape can
    put a lone surrogate into one. *)
Definition str := list N.

(** Concrete text for examples: each character of a Rocq string read as
    the code point with the same number. *)
Definition py (s : string) : str := map N_of_ascii (list_ascii_of_string s).
Arguments py s%_string.

(** [len(s)]. *)
Definition len (s : str) : Z := Z.of_nat (List.length s).

(** [str.isspace] on one code point: the whitespace table of CPython
    (U+0009..U+000D, U+001C..U+0020, U+0085, U+00A0, U+1680,
    U+2000..U+200A, U+2028, U+2029, U+202F, U+205F, U+3000). *)
Definition isspace (c : N) : bool :=
  (((9 <=? c) && (c <=? 13)) || ((28 <=? c) && (c <=? 32))
   || (c =? 133) || (c =? 160) || (c =? 5760)
   || ((8192 <=? c) && (c <=? 8202))
   || (c =? 8232) || (c =? 8233) || (c =? 8239) || (c =? 8287)
   || (c =? 12288))%N.

(** [s.lstrip()]: drop the leading whitespace. *)
Fixpoint lstrip (s : str) : str :=
  match s with
  | [] => []
  | c :: r => if isspace c then lstrip r else s
  end.

(** [s.rstrip()]: drop the trailing whitespace. *)
Definition rstrip (s : str) : str := rev (lstrip (rev s)).

(** [s.strip()]: drop whitespace at both ends. *)
Definition strip (s : str) : str := rstrip (lstrip s).

(** Empty or made of whitespace only. *)
Definition blank (s : str) : bool := forallb isspace s.

(** The surrogate code points, U+D800 to U+DFFF. *)
Definition surrogate (c : N) : bool := ((55296 <=? c) && (c <=? 57343))%N.

(** A string the driver can hand to the engine: its UTF-8 encoding exists,
    that is, it holds no surrogate. *)
Definition encodable (s : str) : bool :=
  forallb (fun c => negb (surrogate c)) s.

(** ** Data model *)

(** [datetime] values, as microseconds on the UTC time line. *)
Definition datetime := Z.

(** A row of the [notes] table ([class NoteORM]). *)
Module NoteORM.
Record t := mk {
  id : Z;
  title : str;
  content : str;
  created_at : datetime;
  updated_at : datetime
}.
End NoteORM.

(** Request body of POST and PUT ([class NoteCreate(NoteBase)]). *)
Module NoteCreate.
Record t := mk {
  title : str;
  content : str
}.
End NoteCreate.

(** Request body of PATCH ([class NoteUpdate]); [None] is an absent field. *)
Module NoteUpdate.
Record t := mk {
  title : option str;
  content : option str
}.
End NoteUpdate.

(** Response body ([class NoteOut(NoteBase)]). *)
Module NoteOut.
Record t := mk {
  title : str;
  content : str;
  id : Z;
  created_at : datetime;
  updated_at : datetime
}.
End NoteOut.

(** The table, rows in rowid order (the order of a full scan). *)
Definition Table := list NoteORM.t.

(** Outcomes other than success: 422, 404, and 500 for an exception that
    no handler catches. *)
Inductive Error :=
| ValidationError
| NotFoundError
| InternalServerError.

Inductive Response (A : Type) :=
| Ok (a : A)
| Fail (e : Error).
Arguments Ok {A} a.
Arguments Fail {A} e.

(** ** Declarative field constraints *)

(** [Field(..., min_length=1, max_length=255)]. *)
Definition title_field (s : str) : bool := (1 <=? len s) && (len s <=? 255).

(** [Field(..., min_length=1)]. *)
Definition content_field (s : str) : bool := 1 <=? len s.

(** Validation of a [NoteBase] (hence [NoteCreate]) body: the constraints
    apply to the strings as submitted. *)
Definition NoteBase_validate (title content : str) : bool :=
  title_field title && content_field content.

(** Validation of a [NoteUpdate] body: a field that is present obeys the
    same constraint. *)
Definition NoteUpdate_validate (p : NoteUpdate.t) : bool :=
  match NoteUpdate.title p with Some s => title_field s | None => true end
  && match NoteUpdate.content p with Some s => content_field s | None => true end.

(** [Path(..., ge=1)]. *)
Definition Path_ge_1 (note_id : Z) : bool := 1 <=? note_id.

(** The attributes of a row copied into a [NoteOut]
    ([from_attributes = True]). *)
Definition from_attributes (n : NoteORM.t) : NoteOut.t :=
  NoteOut.mk (NoteORM.title n) (NoteORM.content n) (NoteORM.id n)
    (NoteORM.created_at n) (NoteORM.updated_at n).

(** [NoteOut.model_validate(note)]: reads the attributes of the row and
    validates them against the fields of [NoteOut], which inherits the
    constraints of [NoteBase]; the [ValidationError] it raises on a row
    that violates them is not caught by any handler. *)
Definition model_validate (n : NoteORM.t) : Response NoteOut.t :=
  if NoteBase_validate (NoteORM.title n) (NoteORM.content n)
  then Ok (from_attributes n)
  else Fail InternalServerError.

(** ** Session operations on the table *)

(** [db.query(NoteORM).filter(NoteORM.id == note_id).first()]. *)
Definition query_first (note_id : Z) (db : Table) : option NoteORM.t :=
  find (fun n => NoteORM.id n =? note_id) db.

(** The largest rowid of the engine, 2^63 - 1. *)
Definition max_rowid : Z := 9223372036854775807.

(** How a lookup that finds no row ends.  An id beyond [max_rowid] cannot
    be bound to the query and the driver raises; the engine stores no such
    id, so this is the one place where the failure shows. *)
Definition lookup_miss (note_id : Z) : Error :=
  if note_id <=? max_rowid then NotFoundError else InternalServerError.

(** The strings a PATCH body asks to write can all be encoded. *)
Definition patch_encodable (p : NoteUpdate.t) : bool :=
  match NoteUpdate.title p with Some s => encodable (strip s) | None => true end
  && match NoteUpdate.content p with Some s => encodable (strip s) | None => true end.

(** The rowid the engine gives to an inserted row whose id is left unset
    (an integer primary key without AUTOINCREMENT): one more than the
    largest in use, 1 on an empty table. *)
Definition next_rowid (db : Table) : Z :=
  1 + fold_right Z.max 0 (map NoteORM.id db).

(** [INSERT]: the new row comes last in rowid order. *)
Definition insert_row (n : NoteORM.t) (db : Table) : Table := db ++ [n].

(** [UPDATE notes SET ... WHERE id = n.id]. *)
Definition update_row (n : NoteORM.t) (db : Table) : Table :=
  map (fun m => if NoteORM.id m =? NoteORM.id n then n else m) db.

(** [DELETE FROM notes WHERE id = note_id]. *)
Definition delete_row (note_id : Z) (db : Table) : Table :=
  filter (fun m => negb (NoteORM.id m =? note_id)) db.

(** [db.refresh(note)] followed by [NoteOut.model_validate(note)]: the row
    is read back by primary key, then serialised. *)
Definition refresh_and_validate (note_id : Z) (db : Table) : Response NoteOut.t :=
  match query_first note_id db with
  | Some n => model_validate n
  | None => Fail InternalServerError
  end.

(** Insertion of one row into a list ordered by [updated_at] descending;
    the inserted row goes before the rows it ties with. *)
Fixpoint insert_desc (n : NoteORM.t) (l : list NoteORM.t) : list NoteORM.t :=
  match l with
  | [] => [n]
  | m :: r =>
      if NoteORM.updated_at m <=? NoteORM.updated_at n
      then n :: l
      else m :: insert_desc n r
  end.

(** Modelled from the spec: the storage engine's
    [ORDER BY updated_at DESC], which the repository calls but does not
    contain.  The rows of the scan are sorted by [updated_at] descending
    and rows with equal [updated_at] keep their scan (insertion) order. *)
Definition order_by_updated_at_desc (db : Table) : list NoteORM.t :=
  fold_right insert_desc [] db.

(** [[NoteOut.model_validate(n) for n in notes]]: the first row that fails
    validation aborts the comprehension. *)
Fixpoint validate_all (l : list NoteORM.t) : Response (list NoteOut.t) :=
  match l with
  | [] => Ok []
  | n :: r =>
      match model_validate n with
      | Fail e => Fail e
      | Ok o =>
          match validate_all r with
          | Fail e => Fail e
          | Ok os => Ok (o :: os)
          end
      end
  end.

(** ** Handlers *)

(** POST /notes.  [db.commit()] raises, with nothing written, when a
    string of the new row cannot be encoded. *)
Definition create_note (now : datetime) (payload : NoteCreate.t) (db : Table)
  : Response NoteOut.t * Table :=
  if negb (NoteBase_validate (NoteCreate.title payload) (NoteCreate.content payload))
  then (Fail ValidationError, db)
  else
    let note := NoteORM.mk (next_rowid db)
                  (strip (NoteCreate.title payload))
                  (strip (NoteCreate.content payload))
                  now now in
    if negb (encodable (NoteORM.title note) && encodable (NoteORM.content note))
    then (Fail InternalServerError, db)
    else
      let db' := insert_row note db in
      (refresh_and_validate (NoteORM.id note) db', db').

(** GET /notes *)
Definition list_notes (db : Table) : Response (list NoteOut.t) * Table :=
  (validate_all (order_by_updated_at_desc db), db).

(** GET /notes/{note_id}.  The query raises when the id cannot be bound
    (see [lookup_miss]). *)
Definition get_note (note_id : Z) (db : Table) : Response NoteOut.t * Table :=
  if negb (Path_ge_1 note_id) then (Fail ValidationError, db)
  else
    match query_first note_id db with
    | None => (Fail (lookup_miss note_id), db)
    | Some note => (model_validate note, db)
    end.

(** PUT /notes/{note_id}.  The query raises when the id cannot be bound;
    [db.commit()] raises, with nothing written, when a new string cannot be
    encoded. *)
Definition update_note_put (now : datetime) (payload : NoteCreate.t)
  (note_id : Z) (db : Table) : Response NoteOut.t * Table :=
  if negb (NoteBase_validate (NoteCreate.title payload) (NoteCreate.content payload)
           && Path_ge_1 note_id)
  then (Fail ValidationError, db)
  else
    match query_first note_id db with
    | None => (Fail (lookup_miss note_id), db)
    | Some note =>
        let note := NoteORM.mk (NoteORM.id note)
                      (strip (NoteCreate.title payload))
                      (strip (NoteCreate.content payload))
                      (NoteORM.created_at note)
                      now in
        if negb (encodable (NoteORM.title note) && encodable (NoteORM.content note))
        then (Fail InternalServerError, db)
        else
          let db' := update_row note db in
          (refresh_and_validate (NoteORM.id note) db', db')
    end.

(** The two conditional assignments of the PATCH handler: the row with the
    supplied fields overwritten, and the [updated] flag. *)
Definition apply_patch (payload : NoteUpdate.t) (note : NoteORM.t)
  : NoteORM.t * bool :=
  let '(note, updated) :=
    match NoteUpdate.title payload with
    | Some s => (NoteORM.mk (NoteORM.id note) (strip s) (NoteORM.content note)
                   (NoteORM.created_at note) (NoteORM.updated_at note), true)
    | None => (note, false)
    end in
  match NoteUpdate.content payload with
  | Some s => (NoteORM.mk (NoteORM.id note) (NoteORM.title note) (strip s)
                 (NoteORM.created_at note) (NoteORM.updated_at note), true)
  | None => (note, updated)
  end.

(** PATCH /notes/{note_id}.  As for PUT; only the supplied fields are
    written, and nothing is committed when none is supplied. *)
Definition update_note_patch (now : datetime) (payload : NoteUpdate.t)
  (note_id : Z) (db : Table) : Response NoteOut.t * Table :=
  if negb (NoteUpdate_validate payload && Path_ge_1 note_id)
  then (Fail ValidationError, db)
  else
    match query_first note_id db with
    | None => (Fail (lookup_miss note_id), db)
    | Some note =>
        let '(note, updated) := apply_patch payload note in
        if updated then
          let note := NoteORM.mk (NoteORM.id note) (NoteORM.title note)
                        (NoteORM.content note) (NoteORM.created_at note) now in
          if negb (patch_encodable payload)
          then (Fail InternalServerError, db)
          else
            let db' := update_row note db in
            (refresh_and_validate (NoteORM.id note) db', db')
        else (model_validate note, db)
    end.

(** DELETE /notes/{note_id}.  The query raises when the id cannot be
    bound. *)
Definition delete_note (note_id : Z) (db : Table) : Response unit * Table :=
  if negb (Path_ge_1 note_id) then (Fail ValidationError, db)
  else
    match query_first note_id db with
    | None => (Fail (lookup_miss note_id), db)
    | Some note => (Ok tt, delete_row (NoteORM.id note) db)
    end.

(** ** Sequences of requests *)

(** The mutating requests. *)
Inductive Request :=
| Create (payload : NoteCreate.t)
| UpdateFull (note_id : Z) (payload : NoteCreate.t)
| UpdatePartial (note_id : Z) (payload : NoteUpdate.t)
| Delete (note_id : Z).

(** The table after serving one request at clock reading [now]. *)
Definition serve (now : datetime) (r : Request) (db : Table) : Table :=
  match r with
  | Create p => snd (create_note now p db)
  | UpdateFull i p => snd (update_note_put now p i db)
  | UpdatePartial i p => snd (update_note_patch now p i db)
  | Delete i => snd (delete_note i db)
  end.

(** The table after serving a sequence of requests, each paired with the
    clock reading at which it is served. *)
Fixpoint run (tr : list (datetime * Request)) (db : Table) : Table :=
  match tr with
  | [] => db
  | (now, r) :: tr' => run tr' (serve now r db)
  end.

(** The states the service can be in: those reached from the empty table. *)
Definition reachable (db : Table) : Prop := exists tr, db = run tr [].

(** The row a PATCH body asks for, given the stored row: supplied fields
    stripped, the others kept, [updated_at] moved to [now] when a field is
    supplied. *)
Definition patched (now : datetime) (p : NoteUpdate.t) (old : NoteORM.t)
  : NoteORM.t :=
  NoteORM.mk (NoteORM.id old)
    (match NoteUpdate.title p with Some s => strip s | None => NoteORM.title old end)
    (match NoteUpdate.content p with Some s => strip s | None => NoteORM.content old end)
    (NoteORM.created_at old)
    (match NoteUpdate.title p, NoteUpdate.content p with
     | None, None => NoteORM.updated_at old
     | _, _ => now
     end).

(** The rows a request served at [now] can write into table [db]: the row
    of an accepted POST, or a stored row rewritten by an accepted PUT or
    PATCH. *)
Definition written (now : datetime) (db : Table) (m : NoteORM.t) : Prop :=
  (exists t c, NoteBase_validate t c = true
     /\ m = NoteORM.mk (next_rowid db) (strip t) (strip c) now now)
  \/ (exists old p, In old db /\ NoteUpdate_validate p = true
       /\ m = patched now p old).




(** Clock readings that never go backwards along a sequence of requests. *)
Definition chronological (tr : list (datetime * Request)) : Prop :=
  Sorted Z.le (map fst tr).

(** Primary key: the ids of the stored rows are pairwise distinct. *)
Definition unique_ids (db : Table) : Prop := NoDup (map NoteORM.id db).

(** Descending order of [updated_at]. *)
Definition newer_or_equal (a b : NoteORM.t) : Prop :=
  NoteORM.updated_at b <= NoteORM.updated_at a.

(** The rows of a list stamped [t], in the order of the list. *)
Definition stamped (t : datetime) (l : list NoteORM.t) : list NoteORM.t :=
  filter (fun n => NoteORM.updated_at n =? t) l.


(** What identifies a row for good: its id and its creation time. *)
Definition key_and_birth (n : NoteORM.t) : Z * datetime :=
  (NoteORM.id n, NoteORM.created_at n).

(** A row the response model accepts. *)
Definition presentable (n : NoteORM.t) : Prop :=
  NoteBase_validate (NoteORM.title n) (NoteORM.content n) = true.

(** The status of a response, its body forgotten. *)
Definition status {A : Type} (r : Response A) : Response unit :=
  match r with
  | Ok _ => Ok tt
  | Fail e => Fail e
  end.

(** The status a mutating request is answered with. *)
Definition answer (now : datetime) (r : Request) (db : Table) : Response unit :=
  match r with
  | Create p => status (fst (create_note now p db))
  | UpdateFull i p => status (fst (update_note_put now p i db))
  | UpdatePartial i p => status (fst (update_note_patch now p i db))
  | Delete i => status (fst (delete_note i db))
  end.

(** Empty, or with a first and a last character that are not whitespace. *)
Definition no_outer_whitespace (s : str) : Prop :=
  s = []
  \/ ((exists c r, s = c :: r /\ isspace c = false)
      /\ (exists r c, s = r ++ [c] /\ isspace c = false)).

(** ** Sample data *)


Definition groceries : NoteORM.t :=
  NoteORM.mk 1 (py "Groceries") (py "Milk, eggs") 100 100.

(** ** The scenario of the specification, executed *)

Example scenario_create :
  create_note 100 (NoteCreate.mk (py "Groceries") (py "Milk, eggs")) []
  = (Ok (NoteOut.mk (py "Groceries") (py "Milk, eggs") 1 100 100),
     [NoteORM.mk 1 (py "Groceries") (py "Milk, eggs") 100 100]).
Proof. reflexivity. Qed.

Example scenario_patch_delete_get :
  let db1 := [NoteORM.mk 1 (py "Groceries") (py "Milk, eggs") 100 100] in
  let r2 := update_note_patch 200
              (NoteUpdate.mk None (Some (py "Milk, eggs, bread"))) 1 db1 in
  let r3 := delete_note 1 (snd r2) in
  fst r2 = Ok (NoteOut.mk (py "Groceries") (py "Milk, eggs, bread") 1 100 200)
  /\ r3 = (Ok tt, [])
  /\ get_note 1 (snd r3) = (Fail NotFoundError, []).
Proof. repeat split. Qed.

Example scenario_empty_title :
  create_note 100 (NoteCreate.mk [] (py "x")) [] = (Fail ValidationError, []).
Proof. reflexivity. Qed.

Example strip_example : strip (py "  a b  ") = py "a b".
Proof. reflexivity. Qed.

(** * Properties *)

(** ** Stripping *)

Section Strip.

(** What [lstrip] leaves is empty or starts with a character that is not
    whitespace. *)
Lemma lstrip_head (s : str) :
  lstrip s = [] \/ exists c r, lstrip s = c :: r /\ isspace c = false.
Proof.
  induction s as [|c r IH]; simpl.
  - now left.
  - destruct (isspace c) eqn:E; [exact IH|].
    right. now exists c, r.
Qed.

Lemma lstrip_fixed (c : N) (r : str) :
  isspace c = false -> lstrip (c :: r) = c :: r.
Proof. intros E. simpl. now rewrite E. Qed.

Lemma lstrip_idempotent (s : str) : lstrip (lstrip s) = lstrip s.
Proof.
  destruct (lstrip_head s) as [E | (c & r & E & Hc)]; rewrite E.
  - reflexivity.
  - now apply lstrip_fixed.
Qed.

Lemma lstrip_snoc (s : str) (c : N) :
  isspace c = false -> lstrip (s ++ [c]) = lstrip s ++ [c].
Proof.
  intros Hc. induction s as [|d r IH]; simpl.
  - now rewrite Hc.
  - destruct (isspace d); [exact IH | reflexivity].
Qed.

Lemma rstrip_cons (c : N) (r : str) :
  isspace c = false -> rstrip (c :: r) = c :: rstrip r.
Proof.
  intros Hc. unfold rstrip. simpl rev.
  rewrite (lstrip_snoc _ _ Hc), rev_app_distr. reflexivity.
Qed.

Lemma rstrip_idempotent (s : str) : rstrip (rstrip s) = rstrip s.
Proof.
  unfold rstrip. now rewrite rev_involutive, lstrip_idempotent.
Qed.

Lemma strip_idempotent (s : str) : strip (strip s) = strip s.
Proof.
  unfold strip.
  destruct (lstrip_head s) as [E | (c & r & E & Hc)]; rewrite E.
  - reflexivity.
  - rewrite (rstrip_cons _ _ Hc), (lstrip_fixed _ _ Hc), (rstrip_cons _ _ Hc).
    now rewrite rstrip_idempotent.
Qed.

Lemma lstrip_length (s : str) : (List.length (lstrip s) <= List.length s)%nat.
Proof.
  induction s as [|c r IH]; simpl; [lia|].
  destruct (isspace c); simpl; lia.
Qed.

Lemma strip_len (s : str) : len (strip s) <= len s.
Proof.
  unfold len, strip, rstrip. rewrite length_rev.
  pose proof (lstrip_length (rev (lstrip s))) as H1.
  pose proof (lstrip_length s) as H2.
  rewrite length_rev in H1. lia.
Qed.

Lemma len_nonneg (s : str) : 0 <= len s.
Proof. unfold len. lia. Qed.

Lemma lstrip_blank (s : str) : lstrip s = [] <-> blank s = true.
Proof.
  induction s as [|c r IH]; simpl.
  - tauto.
  - destruct (isspace c); simpl; [exact IH|].
    split; discriminate.
Qed.

(** The strip of a string is empty exactly when the string is blank. *)
Lemma strip_nil_iff_blank (s : str) : strip s = [] <-> blank s = true.
Proof.
  rewrite <- lstrip_blank. unfold strip.
  destruct (lstrip_head s) as [E | (c & r & E & Hc)]; rewrite E.
  - now split.
  - rewrite (rstrip_cons _ _ Hc). split; discriminate.
Qed.

Lemma len_nil_iff (s : str) : len s = 0 <-> s = [].
Proof.
  unfold len. destruct s; simpl; split; intros H; try reflexivity;
    try discriminate; lia.
Qed.

Lemma isspace_not_surrogate (c : N) :
  isspace c = true -> surrogate c = false.
Proof.
  unfold isspace, surrogate. intros H.
  apply andb_false_iff. left. apply N.leb_gt.
  repeat (apply orb_true_iff in H; destruct H as [H | H]);
    try (apply andb_true_iff in H; destruct H as [_ H]; apply N.leb_le in H);
    try (apply N.eqb_eq in H); lia.
Qed.

Lemma encodable_lstrip (s : str) : encodable (lstrip s) = encodable s.
Proof.
  induction s as [|c r IH]; simpl; [reflexivity|].
  destruct (isspace c) eqn:E; [|reflexivity].
  now rewrite IH, (isspace_not_surrogate c E).
Qed.

Lemma forallb_rev {A : Type} (f : A -> bool) (l : list A) :
  forallb f (rev l) = forallb f l.
Proof.
  induction l as [|a l IH]; simpl; [reflexivity|].
  rewrite forallb_app, IH. simpl. rewrite andb_true_r. apply andb_comm.
Qed.

(** Stripping neither removes nor brings in a surrogate. *)
Lemma encodable_strip (s : str) : encodable (strip s) = encodable s.
Proof.
  unfold strip, rstrip, encodable.
  rewrite forallb_rev. fold (encodable (lstrip (rev (lstrip s)))).
  rewrite encodable_lstrip. unfold encodable. rewrite forallb_rev.
  apply encodable_lstrip.
Qed.

End Strip.

(** ** The table operations *)

Section TableFacts.

Lemma query_first_some (k : Z) (db : Table) (n : NoteORM.t) :
  query_first k db = Some n -> In n db /\ NoteORM.id n = k.
Proof.
  unfold query_first. intros H. apply find_some in H.
  destruct H as [Hin Hid]. split; [exact Hin | lia].
Qed.

Lemma query_first_none (k : Z) (db : Table) :
  query_first k db = None <-> (forall n, In n db -> NoteORM.id n <> k).
Proof.
  unfold query_first. split.
  - intros H n Hin Heq.
    pose proof (find_none _ _ H n Hin) as Hf. simpl in Hf. lia.
  - intros H. induction db as [|m r IH]; simpl; [reflexivity|].
    destruct (NoteORM.id m =? k) eqn:E.
    + exfalso. apply (H m); [now left | lia].
    + apply IH. intros n Hn. apply H. now right.
Qed.

Lemma next_rowid_above (db : Table) (n : NoteORM.t) :
  In n db -> NoteORM.id n < next_rowid db.
Proof.
  unfold next_rowid. induction db as [|m r IH]; cbn [map fold_right In]; [tauto|].
  intros [-> | Hin]; [lia|]. specialize (IH Hin). lia.
Qed.

Lemma next_rowid_positive (db : Table) : 1 <= next_rowid db.
Proof.
  unfold next_rowid. induction db as [|m r IH]; cbn [map fold_right]; lia.
Qed.

Lemma query_first_app (k : Z) (db1 db2 : Table) :
  query_first k (db1 ++ db2) =
  match query_first k db1 with
  | Some n => Some n
  | None => query_first k db2
  end.
Proof.
  unfold query_first. induction db1 as [|m r IH]; simpl; [reflexivity|].
  destruct (NoteORM.id m =? k); [reflexivity | exact IH].
Qed.

(** The row just inserted is the one found under the fresh rowid. *)
Lemma query_first_inserted (db : Table) (n : NoteORM.t) :
  NoteORM.id n = next_rowid db ->
  query_first (NoteORM.id n) (insert_row n db) = Some n.
Proof.
  intros Hid. unfold insert_row. rewrite query_first_app.
  replace (query_first (NoteORM.id n) db) with (@None NoteORM.t).
  - unfold query_first. simpl. now rewrite Z.eqb_refl.
  - symmetry. apply query_first_none. intros m Hm.
    pose proof (next_rowid_above db m Hm). lia.
Qed.

Lemma query_first_update_row (k : Z) (n : NoteORM.t) (db : Table) :
  query_first k (update_row n db) =
  if k =? NoteORM.id n
  then match query_first k db with Some _ => Some n | None => None end
  else query_first k db.
Proof.
  unfold query_first, update_row.
  induction db as [|m r IH]; simpl.
  - now destruct (k =? NoteORM.id n).
  - destruct (NoteORM.id m =? NoteORM.id n) eqn:Emn;
      destruct (k =? NoteORM.id n) eqn:Ekn.
    + rewrite Z.eqb_sym, Ekn.
      replace (NoteORM.id m =? k) with true by lia. reflexivity.
    + replace (NoteORM.id n =? k) with false by lia.
      replace (NoteORM.id m =? k) with false by lia.
      rewrite IH. reflexivity.
    + replace (NoteORM.id m =? k) with false by lia.
      rewrite IH. reflexivity.
    + destruct (NoteORM.id m =? k); [reflexivity|].
      rewrite IH. reflexivity.
Qed.

Lemma query_first_delete_row (k j : Z) (db : Table) :
  query_first k (delete_row j db) =
  if k =? j then None else query_first k db.
Proof.
  unfold query_first, delete_row.
  induction db as [|m r IH]; simpl.
  - now destruct (k =? j).
  - destruct (NoteORM.id m =? j) eqn:Emj; simpl.
    + rewrite IH. destruct (k =? j) eqn:Ekj; [reflexivity|].
      replace (NoteORM.id m =? k) with false by lia. reflexivity.
    + destruct (NoteORM.id m =? k) eqn:Emk.
      * replace (k =? j) with false by lia. reflexivity.
      * exact IH.
Qed.

Lemma update_row_ids (n : NoteORM.t) (db : Table) :
  map NoteORM.id (update_row n db) = map NoteORM.id db.
Proof.
  unfold update_row. rewrite map_map. apply map_ext.
  intros m. destruct (NoteORM.id m =? NoteORM.id n) eqn:E; [lia | reflexivity].
Qed.

Lemma in_update_row (n m : NoteORM.t) (db : Table) :
  In m (update_row n db) -> m = n \/ In m db.
Proof.
  unfold update_row. rewrite in_map_iff. intros (x & Hx & Hin).
  destruct (NoteORM.id x =? NoteORM.id n); subst; auto.
Qed.

Lemma in_delete_row (j : Z) (m : NoteORM.t) (db : Table) :
  In m (delete_row j db) -> In m db.
Proof. unfold delete_row. rewrite filter_In. tauto. Qed.

End TableFacts.

(** ** What each handler does once its parameters are accepted *)

Section Handlers.

Lemma NoteBase_validate_spec (t c : str) :
  NoteBase_validate t c = true <-> (1 <= len t <= 255 /\ 1 <= len c).
Proof.
  unfold NoteBase_validate, title_field, content_field.
  rewrite !andb_true_iff, !Z.leb_le. tauto.
Qed.

Lemma model_validate_ok (n : NoteORM.t) :
  NoteBase_validate (NoteORM.title n) (NoteORM.content n) = true ->
  model_validate n = Ok (from_attributes n).
Proof. unfold model_validate. now intros ->. Qed.


(** An accepted POST inserts the stripped row under the next rowid and
    answers with its serialisation. *)
Lemma create_note_accepted (now : datetime) (p : NoteCreate.t) (db : Table) :
  NoteBase_validate (NoteCreate.title p) (NoteCreate.content p) = true ->
  encodable (NoteCreate.title p) = true ->
  encodable (NoteCreate.content p) = true ->
  let note := NoteORM.mk (next_rowid db) (strip (NoteCreate.title p))
                (strip (NoteCreate.content p)) now now in
  create_note now p db = (model_validate note, insert_row note db).
Proof.
  intros Hv Het Hec note. unfold create_note. rewrite Hv. simpl negb. cbv iota.
  simpl NoteORM.title. simpl NoteORM.content.
  rewrite !encodable_strip, Het, Hec. simpl negb. cbv iota.
  fold note. unfold refresh_and_validate.
  now rewrite (query_first_inserted db note eq_refl).
Qed.

(** A body that passes validation but holds a surrogate is not written. *)
Lemma create_note_unencodable (now : datetime) (p : NoteCreate.t) (db : Table) :
  NoteBase_validate (NoteCreate.title p) (NoteCreate.content p) = true ->
  encodable (NoteCreate.title p) && encodable (NoteCreate.content p) = false ->
  create_note now p db = (Fail InternalServerError, db).
Proof.
  intros Hv He. unfold create_note. rewrite Hv. simpl negb. cbv iota.
  simpl NoteORM.title. simpl NoteORM.content.
  now rewrite !encodable_strip, He.
Qed.

(** An accepted PUT on a stored id rewrites that row and answers with its
    serialisation. *)
Lemma update_note_put_found (now : datetime) (p : NoteCreate.t) (k : Z)
  (db : Table) (old : NoteORM.t) :
  NoteBase_validate (NoteCreate.title p) (NoteCreate.content p) = true ->
  encodable (NoteCreate.title p) = true ->
  encodable (NoteCreate.content p) = true ->
  1 <= k ->
  query_first k db = Some old ->
  let note := NoteORM.mk k (strip (NoteCreate.title p))
                (strip (NoteCreate.content p)) (NoteORM.created_at old) now in
  update_note_put now p k db = (model_validate note, update_row note db).
Proof.
  intros Hv Het Hec Hk Hq note. unfold update_note_put, Path_ge_1.
  rewrite Hv. replace (1 <=? k) with true by lia. simpl negb. cbv iota.
  rewrite Hq. destruct (query_first_some _ _ _ Hq) as [_ Hid].
  simpl NoteORM.title. simpl NoteORM.content.
  rewrite !encodable_strip, Het, Hec. simpl negb. cbv iota.
  rewrite Hid. fold note. unfold refresh_and_validate. simpl NoteORM.id.
  replace (query_first k (update_row note db)) with (Some note); [reflexivity|].
  rewrite query_first_update_row. simpl NoteORM.id.
  now rewrite Z.eqb_refl, Hq.
Qed.

(** A PUT that passes validation but holds a surrogate is not written. *)
Lemma update_note_put_unencodable (now : datetime) (p : NoteCreate.t) (k : Z)
  (db : Table) (old : NoteORM.t) :
  NoteBase_validate (NoteCreate.title p) (NoteCreate.content p) = true ->
  encodable (NoteCreate.title p) && encodable (NoteCreate.content p) = false ->
  1 <= k ->
  query_first k db = Some old ->
  update_note_put now p k db = (Fail InternalServerError, db).
Proof.
  intros Hv He Hk Hq. unfold update_note_put, Path_ge_1.
  rewrite Hv. replace (1 <=? k) with true by lia. simpl negb. cbv iota.
  rewrite Hq. simpl NoteORM.title. simpl NoteORM.content.
  now rewrite !encodable_strip, He.
Qed.

(** A lookup that finds nothing ends the update without a write. *)
Lemma update_note_put_missing (now : datetime) (p : NoteCreate.t) (k : Z)
  (db : Table) :
  NoteBase_validate (NoteCreate.title p) (NoteCreate.content p) = true ->
  1 <= k ->
  query_first k db = None ->
  update_note_put now p k db = (Fail (lookup_miss k), db).
Proof.
  intros Hv Hk Hq. unfold update_note_put, Path_ge_1.
  rewrite Hv. replace (1 <=? k) with true by lia. simpl negb. cbv iota.
  now rewrite Hq.
Qed.

Lemma update_note_put_invalid (now : datetime) (p : NoteCreate.t) (k : Z)
  (db : Table) :
  NoteBase_validate (NoteCreate.title p) (NoteCreate.content p) && (1 <=? k) = false ->
  update_note_put now p k db = (Fail ValidationError, db).
Proof.
  intros Hv. unfold update_note_put, Path_ge_1. now rewrite Hv.
Qed.

Lemma update_note_patch_missing (now : datetime) (p : NoteUpdate.t) (k : Z)
  (db : Table) :
  NoteUpdate_validate p = true ->
  1 <= k ->
  query_first k db = None ->
  update_note_patch now p k db = (Fail (lookup_miss k), db).
Proof.
  intros Hv Hk Hq. unfold update_note_patch, Path_ge_1.
  rewrite Hv. replace (1 <=? k) with true by lia. simpl negb. cbv iota.
  now rewrite Hq.
Qed.

Lemma update_note_patch_invalid (now : datetime) (p : NoteUpdate.t) (k : Z)
  (db : Table) :
  NoteUpdate_validate p && (1 <=? k) = false ->
  update_note_patch now p k db = (Fail ValidationError, db).
Proof.
  intros Hv. unfold update_note_patch, Path_ge_1. now rewrite Hv.
Qed.

(** A PATCH that passes validation but supplies a surrogate is not
    written. *)
Lemma update_note_patch_unencodable (now : datetime) (p : NoteUpdate.t) (k : Z)
  (db : Table) (old : NoteORM.t) :
  NoteUpdate_validate p = true ->
  patch_encodable p = false ->
  1 <= k ->
  query_first k db = Some old ->
  update_note_patch now p k db = (Fail InternalServerError, db).
Proof.
  intros Hv He Hk Hq. unfold update_note_patch, Path_ge_1.
  rewrite Hv. replace (1 <=? k) with true by lia. simpl negb. cbv iota.
  rewrite Hq, He.
  destruct p as [[t|] [c|]]; unfold apply_patch; simpl; try reflexivity.
  discriminate He.
Qed.

Lemma update_note_patch_found (now : datetime) (p : NoteUpdate.t) (k : Z)
  (db : Table) (old : NoteORM.t) :
  NoteUpdate_validate p = true ->
  patch_encodable p = true ->
  1 <= k ->
  query_first k db = Some old ->
  update_note_patch now p k db =
  (model_validate (patched now p old),
   match NoteUpdate.title p, NoteUpdate.content p with
   | None, None => db
   | _, _ => update_row (patched now p old) db
   end).
Proof.
  intros Hv Hpe Hk Hq. unfold update_note_patch, Path_ge_1.
  rewrite Hv. replace (1 <=? k) with true by lia. simpl negb. cbv iota.
  rewrite Hq, Hpe. destruct (query_first_some _ _ _ Hq) as [_ Hid].
  assert (Hback : forall n, NoteORM.id n = k ->
            refresh_and_validate (NoteORM.id n) (update_row n db)
            = model_validate n).
  { intros n Hn. unfold refresh_and_validate.
    rewrite query_first_update_row, Hn, Z.eqb_refl, Hq. reflexivity. }
  destruct p as [[t|] [c|]]; destruct old as [i ot oc ca ua];
    simpl in Hid; unfold apply_patch, patched; simpl;
    try (rewrite (Hback (NoteORM.mk i _ _ ca now) Hid)); reflexivity.
Qed.

End Handlers.

(** ** Reachable states *)

Section Reachability.

(** The effect of one request on the table: nothing, one insertion, one
    row rewritten, or one id deleted. *)
Lemma serve_cases (now : datetime) (r : Request) (db : Table) :
  serve now r db = db
  \/ (exists t c, NoteBase_validate t c = true
      /\ serve now r db
         = insert_row (NoteORM.mk (next_rowid db) (strip t) (strip c) now now) db)
  \/ (exists old p, query_first (NoteORM.id old) db = Some old
      /\ 1 <= NoteORM.id old
      /\ NoteUpdate_validate p = true
      /\ serve now r db = update_row (patched now p old) db)
  \/ (exists k, serve now r db = delete_row k db).
Proof.
  destruct r as [p | i p | i p | i]; unfold serve.
  - destruct (NoteBase_validate (NoteCreate.title p) (NoteCreate.content p)) eqn:Ev.
    + destruct (encodable (NoteCreate.title p)) eqn:Et;
        [destruct (encodable (NoteCreate.content p)) eqn:Ec|].
      * right; left. exists (NoteCreate.title p), (NoteCreate.content p).
        split; [exact Ev|]. now rewrite (create_note_accepted now p db Ev Et Ec).
      * left. rewrite (create_note_unencodable now p db Ev); [reflexivity|].
        now rewrite Et, Ec.
      * left. rewrite (create_note_unencodable now p db Ev); [reflexivity|].
        now rewrite Et.
    + left. unfold create_note. now rewrite Ev.
  - destruct (NoteBase_validate (NoteCreate.title p) (NoteCreate.content p)) eqn:Ev;
      [destruct (1 <=? i) eqn:Ei; [destruct (query_first i db) as [old|] eqn:Eq|]|].
    + assert (Hi : 1 <= i) by lia.
      destruct (encodable (NoteCreate.title p) && encodable (NoteCreate.content p))
        eqn:Ee.
      * apply andb_true_iff in Ee. destruct Ee as [Et Ec].
        right; right; left.
        destruct (query_first_some _ _ _ Eq) as [_ Hid]. subst i.
        exists old, (NoteUpdate.mk (Some (NoteCreate.title p))
                       (Some (NoteCreate.content p))).
        split; [exact Eq|]. split; [exact Hi|]. split; [exact Ev|].
        now rewrite (update_note_put_found now p _ db old Ev Et Ec Hi Eq).
      * left. now rewrite (update_note_put_unencodable now p i db old Ev Ee Hi Eq).
    + left. rewrite (update_note_put_missing now p i db Ev); [reflexivity | lia | exact Eq].
    + left. rewrite (update_note_put_invalid now p i db); [reflexivity|].
      now rewrite Ev, Ei.
    + left. rewrite (update_note_put_invalid now p i db); [reflexivity|].
      now rewrite Ev.
  - destruct (NoteUpdate_validate p) eqn:Ev;
      [destruct (1 <=? i) eqn:Ei; [destruct (query_first i db) as [old|] eqn:Eq|]|].
    + assert (Hi : 1 <= i) by lia.
      destruct (patch_encodable p) eqn:Ee.
      * destruct (query_first_some _ _ _ Eq) as [_ Hid]. subst i.
        rewrite (update_note_patch_found now p _ db old Ev Ee Hi Eq).
        destruct (NoteUpdate.title p) eqn:Et; destruct (NoteUpdate.content p) eqn:Ec;
          simpl snd; try (now left);
          right; right; left; exists old, p; rewrite ?Et, ?Ec; auto.
      * left. now rewrite (update_note_patch_unencodable now p i db old Ev Ee Hi Eq).
    + left. rewrite (update_note_patch_missing now p i db Ev); [reflexivity | lia | exact Eq].
    + left. rewrite (update_note_patch_invalid now p i db); [reflexivity|].
      now rewrite Ev, Ei.
    + left. rewrite (update_note_patch_invalid now p i db); [reflexivity|].
      now rewrite Ev.
  - unfold delete_note.
    destruct (negb (Path_ge_1 i)); [now left|].
    destruct (query_first i db) as [old|]; [|now left].
    right; right; right. now exists (NoteORM.id old).
Qed.

(** Every row of the table after a request was there before or was
    written by the request. *)
Lemma serve_rows (now : datetime) (r : Request) (db : Table) (m : NoteORM.t) :
  In m (serve now r db) -> In m db \/ written now db m.
Proof.
  destruct (serve_cases now r db)
    as [E | [(t & c & Hv & E) | [(old & p & Hq & _ & Hv & E) | (k & E)]]];
    rewrite E; clear E.
  - now left.
  - unfold insert_row. intros H. apply in_app_or in H.
    destruct H as [H | [<- | []]]; [now left|].
    right; left. now exists t, c.
  - intros H. apply in_update_row in H. destruct H as [-> | H]; [|now left].
    right; right. exists old, p. repeat split; try assumption.
    now apply (query_first_some _ _ _ Hq).
  - intros H. left. now apply in_delete_row in H.
Qed.

Lemma run_invariant (P : Table -> Prop) :
  (forall now r db, P db -> P (serve now r db)) ->
  forall tr db, P db -> P (run tr db).
Proof.
  intros Hstep tr. induction tr as [|[now r] tr IH]; intros db H; simpl.
  - exact H.
  - apply IH, Hstep, H.
Qed.

(** Induction over the reachable states. *)
Lemma reachable_invariant (P : Table -> Prop) :
  P [] ->
  (forall now r db, P db -> P (serve now r db)) ->
  forall db, reachable db -> P db.
Proof.
  intros H0 Hstep db [tr ->]. now apply run_invariant.
Qed.

(** A property of rows that every written row has, given that the stored
    rows have it, holds of every row of every reachable state. *)
Lemma rows_invariant (Q : NoteORM.t -> Prop) :
  (forall now db m, Forall Q db -> written now db m -> Q m) ->
  forall db, reachable db -> Forall Q db.
Proof.
  intros Hw. apply reachable_invariant; [constructor|].
  intros now r db H. apply Forall_forall. intros m Hm.
  destruct (serve_rows _ _ _ _ Hm) as [Hin | Hwr].
  - rewrite Forall_forall in H. now apply H.
  - now apply (Hw now db).
Qed.

Lemma run_snoc (tr : list (datetime * Request)) (now : datetime) (r : Request)
  (db : Table) :
  run (tr ++ [(now, r)]) db = serve now r (run tr db).
Proof.
  revert db. induction tr as [|[t q] tr IH]; intros db; simpl; [reflexivity|].
  apply IH.
Qed.

Lemma reachable_serve (now : datetime) (r : Request) (db : Table) :
  reachable db -> reachable (serve now r db).
Proof.
  intros [tr ->]. exists (tr ++ [(now, r)]). now rewrite run_snoc.
Qed.

Lemma NoDup_map_filter {A B : Type} (g : A -> B) (f : A -> bool) (l : list A) :
  NoDup (map g l) -> NoDup (map g (filter f l)).
Proof.
  induction l as [|a l IH]; simpl; [auto|].
  intros H. inversion H as [|x xs Hnin Hnd]; subst.
  destruct (f a); simpl; [constructor|]; auto.
  intros Hin. apply Hnin. rewrite in_map_iff in *.
  destruct Hin as (y & Hy & Hyin). exists y. split; [exact Hy|].
  now apply filter_In in Hyin.
Qed.

(** The primary key holds in every reachable state. *)
Lemma reachable_unique_ids (db : Table) : reachable db -> unique_ids db.
Proof.
  apply reachable_invariant; [constructor|].
  intros now r db0 H. unfold unique_ids in *.
  destruct (serve_cases now r db0)
    as [E | [(t & c & _ & E) | [(old & p & _ & _ & _ & E) | (k & E)]]];
    rewrite E; clear E.
  - exact H.
  - unfold insert_row. rewrite map_app. simpl.
    apply NoDup_rev in H. rewrite <- (rev_involutive (_ ++ _)).
    apply NoDup_rev. rewrite rev_app_distr. simpl. constructor; [|exact H].
    rewrite <- in_rev, in_map_iff. intros (m & Hm & Hin).
    pose proof (next_rowid_above db0 m Hin). lia.
  - now rewrite update_row_ids.
  - now apply NoDup_map_filter.
Qed.

(** Stored ids are at least 1 and stored titles at most 255 characters. *)
Lemma reachable_bounds (db : Table) :
  reachable db ->
  Forall (fun n => 1 <= NoteORM.id n /\ len (NoteORM.title n) <= 255) db.
Proof.
  apply rows_invariant.
  intros now db0 m Hdb [(t & c & Hv & ->) | (old & p & Hin & Hv & ->)]; simpl.
  - apply NoteBase_validate_spec in Hv.
    pose proof (next_rowid_positive db0). pose proof (strip_len t). lia.
  - rewrite Forall_forall in Hdb. destruct (Hdb old Hin) as [Hid Hlen].
    split; [exact Hid|].
    unfold NoteUpdate_validate, title_field in Hv.
    destruct (NoteUpdate.title p) as [s|]; [|exact Hlen].
    apply andb_true_iff in Hv. destruct Hv as [Hv _].
    apply andb_true_iff in Hv. destruct Hv as [_ Hv].
    pose proof (strip_len s). lia.
Qed.

(** With unique ids, rewriting the row stored under an id changes that one
    position of the table and nothing else. *)
Lemma update_row_split (db : Table) (old new : NoteORM.t) :
  unique_ids db ->
  query_first (NoteORM.id new) db = Some old ->
  exists l1 l2, db = l1 ++ old :: l2 /\ update_row new db = l1 ++ new :: l2.
Proof.
  unfold unique_ids, query_first, update_row.
  induction db as [|m r IH]; simpl; [discriminate|].
  intros Hnd Hq. inversion Hnd as [|x xs Hnin Hnd']; subst.
  destruct (NoteORM.id m =? NoteORM.id new) eqn:E.
  - injection Hq as ->. exists [], r. split; [reflexivity|]. simpl. f_equal.
    rewrite <- (map_id r) at 2. apply map_ext_in. intros a Ha.
    destruct (NoteORM.id a =? NoteORM.id new) eqn:Ea; [|reflexivity].
    exfalso. apply Hnin. rewrite in_map_iff. exists a. split; [lia | exact Ha].
  - destruct (IH Hnd' Hq) as (l1 & l2 & -> & Hup).
    exists (m :: l1), l2. split; [reflexivity|]. simpl. now rewrite Hup.
Qed.

End Reachability.

(** * The claims of the specification *)


Lemma groceries_reachable : reachable [groceries].
Proof.
  exists [(100, Create (NoteCreate.mk (py "Groceries") (py "Milk, eggs")))].
  reflexivity.
Qed.

(** ** An empty title in the store *)

(** C1 (the code departs from the claim).  A title made of one space
    passes the minimum-length check, which looks at the submitted string,
    is stripped to the empty string and is committed: a reachable state
    holds a note whose title is empty.  The response model, which repeats
    [min_length=1], then refuses the stored row and the request ends in
    an internal error after the write. *)
Theorem create_note_persists_empty_title :
  let stored := NoteORM.mk 1 [] (py "x") 0 0 in
  create_note 0 (NoteCreate.mk (py " ") (py "x")) []
  = (Fail InternalServerError, [stored])
  /\ reachable [stored]
  /\ blank (NoteORM.title stored) = true.
Proof.
  split; [reflexivity|]. split; [|reflexivity].
  exists [(0, Create (NoteCreate.mk (py " ") (py "x")))]. reflexivity.
Qed.

(** ** Validation of a POST body *)






(** ** Create, then Get *)




(** ** List *)

Section Listing.

Lemma insert_desc_perm (n : NoteORM.t) (l : list NoteORM.t) :
  Permutation (n :: l) (insert_desc n l).
Proof.
  induction l as [|m r IH]; simpl; [reflexivity|].
  destruct (NoteORM.updated_at m <=? NoteORM.updated_at n); [reflexivity|].
  rewrite perm_swap. now apply perm_skip.
Qed.

Lemma order_by_perm (db : Table) : Permutation db (order_by_updated_at_desc db).
Proof.
  induction db as [|n r IH]; simpl; [constructor|].
  rewrite <- insert_desc_perm. now apply perm_skip.
Qed.

Lemma insert_desc_sorted (n : NoteORM.t) (l : list NoteORM.t) :
  StronglySorted newer_or_equal l ->
  StronglySorted newer_or_equal (insert_desc n l).
Proof.
  induction 1 as [|m r Hs IH Hall]; simpl.
  - repeat constructor.
  - destruct (NoteORM.updated_at m <=? NoteORM.updated_at n) eqn:E.
    + constructor; [now constructor|].
      constructor; [unfold newer_or_equal; lia|].
      eapply Forall_impl; [|exact Hall].
      unfold newer_or_equal. intros x Hx. lia.
    + constructor; [exact IH|].
      apply (Permutation_Forall (insert_desc_perm n r)).
      constructor; [unfold newer_or_equal; lia | exact Hall].
Qed.

Lemma order_by_sorted (db : Table) :
  StronglySorted newer_or_equal (order_by_updated_at_desc db).
Proof.
  induction db as [|n r IH]; simpl; [constructor|].
  now apply insert_desc_sorted.
Qed.

Lemma insert_desc_stamped (t : datetime) (n : NoteORM.t) (l : list NoteORM.t) :
  stamped t (insert_desc n l) = stamped t (n :: l).
Proof.
  unfold stamped. induction l as [|m r IH]; [reflexivity|].
  cbn [insert_desc].
  destruct (NoteORM.updated_at m <=? NoteORM.updated_at n) eqn:E; [reflexivity|].
  cbn [filter] in *. rewrite IH.
  destruct (NoteORM.updated_at n =? t) eqn:En; [|reflexivity].
  replace (NoteORM.updated_at m =? t) with false by lia. reflexivity.
Qed.

(** Rows with the same [updated_at] come out in the order they are stored. *)
Lemma order_by_stable (t : datetime) (db : Table) :
  stamped t (order_by_updated_at_desc db) = stamped t db.
Proof.
  induction db as [|n r IH]; [reflexivity|].
  cbn [order_by_updated_at_desc fold_right].
  rewrite insert_desc_stamped. unfold stamped in *. cbn [filter].
  fold (order_by_updated_at_desc r). now rewrite IH.
Qed.

Lemma validate_all_ok (l : list NoteORM.t) :
  Forall (fun n => NoteBase_validate (NoteORM.title n) (NoteORM.content n) = true) l ->
  validate_all l = Ok (map from_attributes l).
Proof.
  induction 1 as [|n r Hn _ IH]; simpl; [reflexivity|].
  now rewrite (model_validate_ok n Hn), IH.
Qed.

(** On a table whose rows all satisfy the constraints of the response
    model, List answers with every stored note, ordered by [updated_at]
    descending, ties in insertion order; the empty table gives the empty
    sequence. *)
Lemma list_notes_sorted_stable (db : Table) :
  Forall (fun n => NoteBase_validate (NoteORM.title n) (NoteORM.content n) = true) db ->
  exists l,
    list_notes db = (Ok (map from_attributes l), db)
    /\ Permutation db l
    /\ StronglySorted newer_or_equal l
    /\ (forall t, stamped t l = stamped t db).
Proof.
  intros H. exists (order_by_updated_at_desc db). split; [|split; [|split]].
  - unfold list_notes. rewrite validate_all_ok; [reflexivity|].
    apply (Permutation_Forall (order_by_perm db) H).
  - apply order_by_perm.
  - apply order_by_sorted.
  - intros t. apply order_by_stable.
Qed.

Lemma list_notes_empty : list_notes [] = (Ok [], []).
Proof. reflexivity. Qed.

End Listing.

(** C4 (the code departs from the claim).  After the two accepted requests
    below the table holds two notes, one of them with an empty title; List
    then returns no note at all: serialising the stored row with the empty
    title raises, and the request ends in an internal error.  This is the
    defect shown for C1, seen from List. *)
Theorem list_notes_fails_on_empty_title :
  let db := run [(100, Create (NoteCreate.mk (py "Groceries") (py "Milk, eggs")));
                 (200, Create (NoteCreate.mk (py " ") (py "x")))] [] in
  db = [groceries; NoteORM.mk 2 [] (py "x") 200 200]
  /\ list_notes db = (Fail InternalServerError, db).
Proof. split; reflexivity. Qed.

(** ** Ids without a row *)




(** ** Partial update *)





(** ** Full update *)




(** ** Timestamps *)

(** One request served at [now], on a table whose rows are stamped no
    later than [now], leaves every row with
    [created_at <= updated_at <= now]: Create stamps both fields with
    [now], the updates move [updated_at] to [now] or keep it. *)
Lemma serve_keeps_stamps (now : datetime) (r : Request) (db : Table) :
  (forall n, In n db ->
     NoteORM.created_at n <= NoteORM.updated_at n <= now) ->
  forall m, In m (serve now r db) ->
    NoteORM.created_at m <= NoteORM.updated_at m <= now.
Proof.
  intros H m Hm.
  destruct (serve_rows _ _ _ _ Hm)
    as [Hin | [(t & c & _ & ->) | (old & p & Hin & _ & ->)]].
  - now apply H.
  - simpl. lia.
  - specialize (H old Hin). unfold patched. simpl.
    destruct (NoteUpdate.title p); destruct (NoteUpdate.content p); lia.
Qed.

Lemma run_keeps_stamps (tr : list (datetime * Request)) :
  forall (db : Table) (T : datetime),
    Sorted Z.le (T :: map fst tr) ->
    (forall n, In n db ->
       NoteORM.created_at n <= NoteORM.updated_at n <= T) ->
    forall m, In m (run tr db) ->
      NoteORM.created_at m <= NoteORM.updated_at m.
Proof.
  induction tr as [|[now r] tr IH]; intros db T Hs H m Hm; simpl in *.
  - now apply H.
  - inversion Hs as [|a l Hs' Hhd]; subst.
    inversion Hhd as [|b l' Hle]; subst.
    apply (IH (serve now r db) now Hs'); [|exact Hm].
    apply serve_keeps_stamps. intros n Hn. specialize (H n Hn). lia.
Qed.

(** Counterexample to C8 as stated.  The handlers stamp a row with the
    clock reading they take and compare it with nothing: a Create served
    at 100 followed by a PUT served at 50 leaves a stored note with
    [updated_at] before [created_at], and that PUT alone breaks the
    invariant on a table that satisfied it. *)
Lemma updated_at_may_precede_created_at :
  let p := NoteCreate.mk (py "Groceries") (py "Milk, eggs") in
  let n := NoteORM.mk 1 (py "Groceries") (py "Milk, eggs") 100 50 in
  run [(100, Create p); (50, UpdateFull 1 p)] [] = [n]
  /\ NoteORM.updated_at n < NoteORM.created_at n
  /\ (forall m, In m [groceries] -> NoteORM.created_at m <= NoteORM.updated_at m)
  /\ serve 50 (UpdateFull 1 p) [groceries] = [n].
Proof.
  split; [reflexivity|]. split; [reflexivity|]. split; [|reflexivity].
  intros m [<- | []]. simpl. lia.
Qed.

(** C8 (amended).  In every state reached from the empty table by
    requests whose clock readings never go backwards, every stored note
    has [updated_at >= created_at]. *)
Theorem updated_at_not_before_created_at (tr : list (datetime * Request))
  (n : NoteORM.t) :
  chronological tr ->
  In n (run tr []) ->
  NoteORM.created_at n <= NoteORM.updated_at n.
Proof.
  unfold chronological. intros Hs Hin.
  destruct tr as [|[now r] tr']; [destruct Hin|].
  apply (run_keeps_stamps ((now, r) :: tr') [] now); try exact Hin.
  - simpl in *. constructor; [exact Hs|]. constructor. lia.
  - intros x [].
Qed.

Lemma updated_at_not_before_created_at_witness :
  let tr := [(100, Create (NoteCreate.mk (py "Groceries") (py "Milk, eggs")));
             (200, UpdatePartial 1 (NoteUpdate.mk None (Some (py "Milk, eggs, bread"))))] in
  let n := NoteORM.mk 1 (py "Groceries") (py "Milk, eggs, bread") 100 200 in
  chronological tr /\ In n (run tr []) /\ NoteORM.created_at n <= NoteORM.updated_at n.
Proof.
  intros tr n.
  assert (Hc : chronological tr).
  { unfold chronological, tr. simpl. repeat constructor. lia. }
  assert (Hin : In n (run tr [])) by (left; reflexivity).
  split; [exact Hc|]. split; [exact Hin|].
  exact (updated_at_not_before_created_at tr n Hc Hin).
Defined.

(** ** PATCH with every field against PUT *)

(** C9.  At the same clock reading, on every table and for every id,
    title and content, UpdatePartial with both fields supplied gives the
    same response and the same resulting table as UpdateFull; this covers
    every existing note and every valid title and content. *)
Theorem update_note_patch_both_is_put (now : datetime) (t c : str) (k : Z)
  (db : Table) :
  update_note_patch now (NoteUpdate.mk (Some t) (Some c)) k db
  = update_note_put now (NoteCreate.mk t c) k db.
Proof.
  unfold update_note_patch, update_note_put, NoteUpdate_validate,
    NoteBase_validate. simpl.
  destruct (negb (title_field t && content_field c && Path_ge_1 k));
    [reflexivity|].
  destruct (query_first k db) as [old|]; reflexivity.
Qed.

(** ** Stored fields are trimmed *)

Lemma reachable_trimmed (db : Table) :
  reachable db ->
  Forall (fun n => strip (NoteORM.title n) = NoteORM.title n
                   /\ strip (NoteORM.content n) = NoteORM.content n) db.
Proof.
  apply rows_invariant.
  intros now db0 m Hdb [(t & c & _ & ->) | (old & p & Hin & _ & ->)]; simpl.
  - now rewrite !strip_idempotent.
  - rewrite Forall_forall in Hdb. destruct (Hdb old Hin) as [Ht Hc].
    destruct (NoteUpdate.title p); destruct (NoteUpdate.content p);
      rewrite ?strip_idempotent; auto.
Qed.

(** Hence a stored field that is blank is the empty string: whitespace
    alone is never stored. *)
Lemma stored_blank_is_empty (db : Table) (n : NoteORM.t) :
  reachable db ->
  In n db ->
  (blank (NoteORM.title n) = true -> NoteORM.title n = [])
  /\ (blank (NoteORM.content n) = true -> NoteORM.content n = []).
Proof.
  intros Hr Hin. pose proof (reachable_trimmed db Hr) as H.
  rewrite Forall_forall in H. destruct (H n Hin) as [Ht Hc].
  split; intros Hb; apply strip_nil_iff_blank in Hb; congruence.
Qed.

(** C10.  In every reachable state every stored title and content equals
    its own trim. *)
Theorem stored_fields_are_trimmed (db : Table) (n : NoteORM.t) :
  reachable db ->
  In n db ->
  strip (NoteORM.title n) = NoteORM.title n
  /\ strip (NoteORM.content n) = NoteORM.content n.
Proof.
  intros Hr Hin. pose proof (reachable_trimmed db Hr) as H.
  rewrite Forall_forall in H. exact (H n Hin).
Qed.

Lemma stored_fields_are_trimmed_witness :
  let db := run [(100, Create (NoteCreate.mk (py "  Groceries ") (py "Milk, eggs  ")))] [] in
  reachable db
  /\ In groceries db
  /\ strip (NoteORM.title groceries) = NoteORM.title groceries
  /\ strip (NoteORM.content groceries) = NoteORM.content groceries.
Proof.
  intros db.
  assert (Hr : reachable db) by (eexists; reflexivity).
  assert (Hin : In groceries db) by (left; reflexivity).
  split; [exact Hr|]. split; [exact Hin|].
  exact (stored_fields_are_trimmed db groceries Hr Hin).
Defined.

(** * Further properties of the handlers *)

(** ** Create *)





(** Once the submitted strings are within bounds, the stripped row passes
    the response model exactly when no field is blank. *)
Lemma stripped_fields_presentable (t c : str) :
  NoteBase_validate t c = true ->
  NoteBase_validate (strip t) (strip c) = negb (blank t || blank c).
Proof.
  intros Hv. apply NoteBase_validate_spec in Hv.
  pose proof (strip_len t). pose proof (strip_len c).
  pose proof (len_nonneg (strip t)). pose proof (len_nonneg (strip c)).
  destruct (blank t) eqn:Et; [|destruct (blank c) eqn:Ec]; simpl.
  - apply strip_nil_iff_blank in Et. rewrite Et. reflexivity.
  - apply strip_nil_iff_blank in Ec. rewrite Ec.
    unfold NoteBase_validate. apply andb_false_r.
  - apply NoteBase_validate_spec.
    assert (len (strip t) <> 0).
    { intros E. apply len_nil_iff, strip_nil_iff_blank in E. congruence. }
    assert (len (strip c) <> 0).
    { intros E. apply len_nil_iff, strip_nil_iff_blank in E. congruence. }
    lia.
Qed.

(** The outcome of Create, by cases on the body. *)
Lemma create_note_cases (now : datetime) (p : NoteCreate.t) (db : Table) :
  let t := NoteCreate.title p in
  let c := NoteCreate.content p in
  let row := NoteORM.mk (next_rowid db) (strip t) (strip c) now now in
  create_note now p db =
  if negb (NoteBase_validate t c) then (Fail ValidationError, db)
  else if negb (encodable t && encodable c) then (Fail InternalServerError, db)
  else if blank t || blank c then (Fail InternalServerError, db ++ [row])
  else (Ok (from_attributes row), db ++ [row]).
Proof.
  intros t c row.
  destruct (NoteBase_validate t c) eqn:Ev; simpl negb; cbv iota.
  - destruct (encodable t && encodable c) eqn:Ee; simpl negb; cbv iota.
    + apply andb_true_iff in Ee. destruct Ee as [Et Ec].
      rewrite (create_note_accepted now p db Ev Et Ec). fold t c row.
      unfold model_validate. simpl NoteORM.title. simpl NoteORM.content.
      rewrite (stripped_fields_presentable t c Ev).
      now destruct (blank t || blank c).
    + apply (create_note_unencodable now p db Ev Ee).
  - unfold create_note. fold t c. now rewrite Ev.
Qed.



Lemma delete_row_absent (k : Z) (db : Table) :
  query_first k db = None -> delete_row k db = db.
Proof.
  rewrite query_first_none. intros H. unfold delete_row.
  induction db as [|m r IH]; simpl; [reflexivity|].
  replace (NoteORM.id m =? k) with false
    by (symmetry; apply Z.eqb_neq, H; now left).
  simpl. f_equal. apply IH. intros n Hn. apply H. now right.
Qed.

Lemma query_first_fresh (db : Table) : query_first (next_rowid db) db = None.
Proof.
  apply query_first_none. intros m Hm.
  pose proof (next_rowid_above db m Hm). lia.
Qed.

(** X2.  Deleting the note Create has just returned gives back the table
    as it was before the Create. *)
Theorem create_then_delete_restores (now : datetime) (p : NoteCreate.t)
  (db db' : Table) (out : NoteOut.t) :
  create_note now p db = (Ok out, db') ->
  delete_note (NoteOut.id out) db' = (Ok tt, db).
Proof.
  rewrite create_note_cases.
  destruct (negb (NoteBase_validate _ _)); [discriminate|].
  destruct (negb (encodable _ && encodable _)); [discriminate|].
  destruct (blank _ || blank _); [discriminate|].
  intros H. injection H as <- <-. simpl NoteOut.id.
  set (row := NoteORM.mk (next_rowid db) _ _ now now).
  unfold delete_note, Path_ge_1.
  pose proof (next_rowid_positive db).
  replace (1 <=? next_rowid db) with true by lia. simpl negb. cbv iota.
  change (db ++ [row]) with (insert_row row db).
  change (next_rowid db) with (NoteORM.id row) at 1.
  rewrite (query_first_inserted db row eq_refl). f_equal.
  unfold delete_row, insert_row. rewrite filter_app. simpl.
  rewrite Z.eqb_refl. simpl. rewrite app_nil_r.
  apply (delete_row_absent _ _ (query_first_fresh db)).
Qed.

Lemma create_then_delete_restores_witness :
  create_note 100 (NoteCreate.mk (py "Groceries") (py "Milk, eggs")) []
  = (Ok (from_attributes groceries), [groceries])
  /\ delete_note 1 [groceries] = (Ok tt, []).
Proof.
  assert (H : create_note 100 (NoteCreate.mk (py "Groceries") (py "Milk, eggs")) []
              = (Ok (from_attributes groceries), [groceries])) by reflexivity.
  split; [exact H|].
  exact (create_then_delete_restores _ _ _ _ _ H).
Defined.

(** X3.  Create leaves the notes already stored as they are: Get on a
    stored id answers after the Create what it answered before, whether
    or not the Create was accepted. *)
Theorem create_keeps_stored_notes (now : datetime) (p : NoteCreate.t)
  (db : Table) (k : Z) (n : NoteORM.t) :
  query_first k db = Some n ->
  fst (get_note k (snd (create_note now p db))) = fst (get_note k db).
Proof.
  intros Hq. rewrite create_note_cases.
  destruct (negb (NoteBase_validate _ _)); [reflexivity|].
  destruct (negb (encodable _ && encodable _)); [reflexivity|].
  assert (H : forall row, fst (get_note k (db ++ [row])) = fst (get_note k db)).
  { intros row. unfold get_note.
    destruct (negb (Path_ge_1 k)); [reflexivity|].
    now rewrite query_first_app, Hq. }
  destruct (blank _ || blank _); apply H.
Qed.

Lemma create_keeps_stored_notes_witness :
  query_first 1 [groceries] = Some groceries
  /\ fst (get_note 1 (snd (create_note 200 (NoteCreate.mk (py "b") (py "c")) [groceries])))
     = fst (get_note 1 [groceries]).
Proof.
  assert (H : query_first 1 [groceries] = Some groceries) by reflexivity.
  split; [exact H|].
  exact (create_keeps_stored_notes 200 (NoteCreate.mk (py "b") (py "c"))
           [groceries] 1 groceries H).
Defined.



(** ** Delete *)

Lemma delete_row_split (db : Table) (k : Z) (old : NoteORM.t) :
  unique_ids db ->
  query_first k db = Some old ->
  exists l1 l2, db = l1 ++ old :: l2 /\ delete_row k db = l1 ++ l2.
Proof.
  unfold unique_ids.
  induction db as [|m r IH]; [discriminate|].
  intros Hnd Hq. simpl in Hnd. inversion Hnd as [|x xs Hnin Hnd']; subst.
  unfold query_first in Hq. simpl in Hq.
  unfold delete_row. simpl.
  destruct (NoteORM.id m =? k) eqn:E.
  - injection Hq as ->. exists [], r. split; [reflexivity|]. simpl.
    apply (delete_row_absent k r). apply query_first_none.
    intros n Hn Hid. apply Hnin. rewrite in_map_iff. exists n.
    split; [lia | exact Hn].
  - destruct (IH Hnd' Hq) as (l1 & l2 & -> & Hdel).
    exists (m :: l1), l2. split; [reflexivity|]. simpl.
    unfold delete_row in Hdel. now rewrite Hdel.
Qed.

(** X5.  In a reachable state, Delete of a stored id always succeeds,
    whatever the note holds, and removes that one row: the rows before and
    after it stay, in their order. *)
Theorem delete_note_removes_one_row (db : Table) (k : Z) (old : NoteORM.t) :
  reachable db ->
  query_first k db = Some old ->
  exists l1 l2, db = l1 ++ old :: l2 /\ delete_note k db = (Ok tt, l1 ++ l2).
Proof.
  intros Hr Hq.
  pose proof (reachable_bounds db Hr) as Hb. rewrite Forall_forall in Hb.
  destruct (query_first_some _ _ _ Hq) as [Hin Hid].
  destruct (Hb old Hin) as [Hk _]. rewrite Hid in Hk.
  destruct (delete_row_split db k old (reachable_unique_ids db Hr) Hq)
    as (l1 & l2 & Hdb & Hdel).
  exists l1, l2. split; [exact Hdb|].
  unfold delete_note, Path_ge_1. replace (1 <=? k) with true by lia.
  simpl negb. cbv iota. rewrite Hq, Hid, Hdel. reflexivity.
Qed.

Lemma delete_note_removes_one_row_witness :
  let db := [groceries; NoteORM.mk 2 [] (py "x") 200 200] in
  reachable db
  /\ query_first 2 db = Some (NoteORM.mk 2 [] (py "x") 200 200)
  /\ exists l1 l2,
       db = l1 ++ NoteORM.mk 2 [] (py "x") 200 200 :: l2
       /\ delete_note 2 db = (Ok tt, l1 ++ l2).
Proof.
  intros db.
  assert (Hr : reachable db).
  { exists [(100, Create (NoteCreate.mk (py "Groceries") (py "Milk, eggs")));
            (200, Create (NoteCreate.mk (py " ") (py "x")))]. reflexivity. }
  assert (Hq : query_first 2 db = Some (NoteORM.mk 2 [] (py "x") 200 200))
    by reflexivity.
  split; [exact Hr|]. split; [exact Hq|].
  exact (delete_note_removes_one_row db 2 _ Hr Hq).
Defined.

(** ** Updates *)







(** The table after a PUT or a PATCH: the table before, or the table
    before with the rows of that id rewritten into a row of the same id
    and creation time. *)
Lemma update_note_put_table (now : datetime) (p : NoteCreate.t) (k : Z)
  (db : Table) :
  snd (update_note_put now p k db) = db
  \/ exists old n,
       query_first k db = Some old /\ 1 <= k
       /\ NoteORM.id n = k
       /\ NoteORM.created_at n = NoteORM.created_at old
       /\ update_note_put now p k db = (model_validate n, update_row n db).
Proof.
  destruct (NoteBase_validate (NoteCreate.title p) (NoteCreate.content p)) eqn:Hv;
    [destruct (Z.leb_spec 1 k) as [Hk|Hk];
     [destruct (query_first k db) as [old|] eqn:Hq|]|].
  - destruct (encodable (NoteCreate.title p) && encodable (NoteCreate.content p))
      eqn:He.
    + apply andb_true_iff in He. destruct He as [Het Hec]. right.
      exists old, (NoteORM.mk k (strip (NoteCreate.title p))
                     (strip (NoteCreate.content p)) (NoteORM.created_at old) now).
      split; [reflexivity|]. split; [exact Hk|].
      rewrite (update_note_put_found now p k db old Hv Het Hec Hk Hq).
      repeat split; reflexivity.
    + left. now rewrite (update_note_put_unencodable now p k db old Hv He Hk Hq).
  - left. now rewrite (update_note_put_missing now p k db Hv Hk Hq).
  - left. rewrite (update_note_put_invalid now p k db); [reflexivity|].
    replace (1 <=? k) with false by lia. apply andb_false_r.
  - left. rewrite (update_note_put_invalid now p k db); [reflexivity|].
    now rewrite Hv.
Qed.

Lemma update_note_patch_table (now : datetime) (p : NoteUpdate.t) (k : Z)
  (db : Table) :
  snd (update_note_patch now p k db) = db
  \/ exists old n,
       query_first k db = Some old /\ 1 <= k
       /\ NoteORM.id n = k
       /\ NoteORM.created_at n = NoteORM.created_at old
       /\ update_note_patch now p k db = (model_validate n, update_row n db).
Proof.
  destruct (NoteUpdate_validate p) eqn:Hv;
    [destruct (Z.leb_spec 1 k) as [Hk|Hk];
     [destruct (query_first k db) as [old|] eqn:Hq|]|].
  - destruct (patch_encodable p) eqn:He.
    + rewrite (update_note_patch_found now p k db old Hv He Hk Hq).
      destruct (query_first_some _ _ _ Hq) as [_ Hid].
      destruct (NoteUpdate.title p) eqn:Et; destruct (NoteUpdate.content p) eqn:Ec;
        try (now left);
        right; exists old, (patched now p old); rewrite ?Et, ?Ec; auto 6.
    + left. now rewrite (update_note_patch_unencodable now p k db old Hv He Hk Hq).
  - left. now rewrite (update_note_patch_missing now p k db Hv Hk Hq).
  - left. rewrite (update_note_patch_invalid now p k db); [reflexivity|].
    replace (1 <=? k) with false by lia. apply andb_false_r.
  - left. rewrite (update_note_patch_invalid now p k db); [reflexivity|].
    now rewrite Hv.
Qed.

Lemma update_row_keys (db : Table) (old n : NoteORM.t) :
  unique_ids db ->
  query_first (NoteORM.id n) db = Some old ->
  NoteORM.created_at n = NoteORM.created_at old ->
  map key_and_birth (update_row n db) = map key_and_birth db.
Proof.
  intros Hu Hq Hc.
  destruct (update_row_split db old n Hu Hq) as (l1 & l2 & -> & ->).
  rewrite !map_app. simpl. do 2 f_equal.
  destruct (query_first_some _ _ _ Hq) as [_ Hid].
  unfold key_and_birth. now rewrite Hid, Hc.
Qed.

(** X8.  In a reachable state, neither PUT nor PATCH, whatever it is
    asked, adds or removes a row or changes the id or the [created_at] of
    one: the list of (id, created_at) pairs of the table is the same
    after as before. *)
Theorem updates_keep_id_and_created_at (now : datetime) (k : Z) (db : Table) :
  reachable db ->
  (forall p, map key_and_birth (snd (update_note_put now p k db))
             = map key_and_birth db)
  /\ (forall p, map key_and_birth (snd (update_note_patch now p k db))
                = map key_and_birth db).
Proof.
  intros Hr. pose proof (reachable_unique_ids db Hr) as Hu.
  split; intros p.
  - destruct (update_note_put_table now p k db)
      as [-> | (old & n & Hq & _ & Hid & Hc & ->)]; [reflexivity|].
    simpl snd. rewrite <- Hid in Hq. now apply (update_row_keys db old n).
  - destruct (update_note_patch_table now p k db)
      as [-> | (old & n & Hq & _ & Hid & Hc & ->)]; [reflexivity|].
    simpl snd. rewrite <- Hid in Hq. now apply (update_row_keys db old n).
Qed.

Lemma updates_keep_id_and_created_at_witness :
  reachable [groceries]
  /\ map key_and_birth
       (snd (update_note_put 300 (NoteCreate.mk (py "b") (py "c")) 1 [groceries]))
     = map key_and_birth [groceries].
Proof.
  split; [exact groceries_reachable|].
  exact (proj1 (updates_keep_id_and_created_at 300 1 [groceries]
                  groceries_reachable) (NoteCreate.mk (py "b") (py "c"))).
Defined.

(** X9.  A PUT, PATCH or DELETE addressed to one id never touches the
    note stored under another id, on any table and whatever the request
    is answered. *)
Theorem other_ids_untouched (now : datetime) (k j : Z) (db : Table) :
  j <> k ->
  (forall p, query_first j (snd (update_note_put now p k db)) = query_first j db)
  /\ (forall p, query_first j (snd (update_note_patch now p k db))
                = query_first j db)
  /\ query_first j (snd (delete_note k db)) = query_first j db.
Proof.
  intros Hjk. split; [|split]; [intros p | intros p |].
  - destruct (update_note_put_table now p k db)
      as [-> | (old & n & _ & _ & Hid & _ & ->)]; [reflexivity|].
    simpl snd. rewrite query_first_update_row, Hid.
    now replace (j =? k) with false by lia.
  - destruct (update_note_patch_table now p k db)
      as [-> | (old & n & _ & _ & Hid & _ & ->)]; [reflexivity|].
    simpl snd. rewrite query_first_update_row, Hid.
    now replace (j =? k) with false by lia.
  - unfold delete_note. destruct (negb (Path_ge_1 k)); [reflexivity|].
    destruct (query_first k db) as [old|] eqn:Hq; [|reflexivity].
    simpl snd. rewrite query_first_delete_row.
    destruct (query_first_some _ _ _ Hq) as [_ Hid]. rewrite Hid.
    now replace (j =? k) with false by lia.
Qed.

Lemma other_ids_untouched_witness :
  let db := [groceries; NoteORM.mk 2 (py "b") (py "c") 200 200] in
  1 <> 2
  /\ query_first 1 (snd (delete_note 2 db)) = query_first 1 db.
Proof.
  intros db. assert (H : 1 <> 2) by discriminate.
  split; [exact H|].
  exact (proj2 (proj2 (other_ids_untouched 0 2 1 db H))).
Defined.

(** X10.  A mutating request answered with a validation error or a
    not-found error has written nothing. *)
Theorem client_errors_write_nothing (now : datetime) (r : Request) (db : Table) :
  answer now r db = Fail ValidationError \/ answer now r db = Fail NotFoundError ->
  serve now r db = db.
Proof.
  assert (Hm : forall n, status (model_validate n) <> Fail ValidationError
                         /\ status (model_validate n) <> Fail NotFoundError).
  { intros n. unfold model_validate.
    destruct (NoteBase_validate _ _); split; discriminate. }
  destruct r as [p | i p | i p | i]; unfold answer, serve.
  - rewrite create_note_cases.
    destruct (negb (NoteBase_validate _ _)); [reflexivity|].
    destruct (negb (encodable _ && encodable _)); [reflexivity|].
    destruct (blank _ || blank _); simpl; intros [H|H]; discriminate.
  - destruct (update_note_put_table now p i db)
      as [-> | (old & n & _ & _ & _ & _ & ->)]; [reflexivity|].
    simpl fst. intros [H|H]; now apply (Hm n) in H.
  - destruct (update_note_patch_table now p i db)
      as [-> | (old & n & _ & _ & _ & _ & ->)]; [reflexivity|].
    simpl fst. intros [H|H]; now apply (Hm n) in H.
  - unfold delete_note. destruct (negb (Path_ge_1 i)); [reflexivity|].
    destruct (query_first i db); [|reflexivity].
    simpl. intros [H|H]; discriminate.
Qed.

Lemma client_errors_write_nothing_witness :
  answer 5 (UpdateFull 7 (NoteCreate.mk (py "b") (py "c"))) [groceries]
  = Fail NotFoundError
  /\ serve 5 (UpdateFull 7 (NoteCreate.mk (py "b") (py "c"))) [groceries]
     = [groceries].
Proof.
  assert (H : answer 5 (UpdateFull 7 (NoteCreate.mk (py "b") (py "c"))) [groceries]
              = Fail NotFoundError) by reflexivity.
  split; [exact H|].
  exact (client_errors_write_nothing 5 _ [groceries] (or_intror H)).
Defined.

(** ** List and Get *)

Lemma validate_all_fail (l : list NoteORM.t) (e : Error) :
  validate_all l = Fail e ->
  e = InternalServerError /\ exists n, In n l /\ ~ presentable n.
Proof.
  unfold presentable.
  induction l as [|n r IH]; simpl; [discriminate|].
  unfold model_validate at 1.
  destruct (NoteBase_validate (NoteORM.title n) (NoteORM.content n)) eqn:Ev.
  - destruct (validate_all r) as [os | e']; [discriminate|].
    intros H. injection H as ->. destruct (IH eq_refl) as [He (m & Hm & Hp)].
    split; [exact He|]. exists m. split; [now right | exact Hp].
  - intros H. injection H as <-. split; [reflexivity|].
    exists n. split; [now left | congruence].
Qed.

Lemma validate_all_presentable (l : list NoteORM.t) (os : list NoteOut.t) :
  validate_all l = Ok os -> Forall presentable l.
Proof.
  revert os. induction l as [|n r IH]; intros os; simpl; [constructor|].
  unfold model_validate at 1.
  destruct (NoteBase_validate (NoteORM.title n) (NoteORM.content n)) eqn:Ev;
    [|discriminate].
  destruct (validate_all r) as [os'|]; [|discriminate].
  intros _. constructor; [exact Ev | now apply (IH os')].
Qed.

(** In a reachable state the response model accepts a row exactly when
    its title and content are not empty. *)
Lemma reachable_presentable (db : Table) (n : NoteORM.t) :
  reachable db ->
  In n db ->
  (presentable n <-> NoteORM.title n <> [] /\ NoteORM.content n <> []).
Proof.
  intros Hr Hin.
  pose proof (reachable_bounds db Hr) as Hb. rewrite Forall_forall in Hb.
  destruct (Hb n Hin) as [_ Hlen].
  unfold presentable. rewrite NoteBase_validate_spec.
  pose proof (len_nonneg (NoteORM.title n)).
  pose proof (len_nonneg (NoteORM.content n)).
  pose proof (len_nil_iff (NoteORM.title n)) as Ht.
  pose proof (len_nil_iff (NoteORM.content n)) as Hc.
  split.
  - intros [[H1 _] H2]. split; intros E.
    + apply Ht in E. lia.
    + apply Hc in E. lia.
  - intros [H1 H2].
    assert (len (NoteORM.title n) <> 0) by (intros E; now apply Ht in E).
    assert (len (NoteORM.content n) <> 0) by (intros E; now apply Hc in E).
    lia.
Qed.

(** X11.  In a reachable state, List answers with notes exactly when no
    stored note has an empty title or content; otherwise the whole
    listing ends in an internal error. *)
Theorem list_notes_answers_iff (db : Table) :
  reachable db ->
  ((exists notes, fst (list_notes db) = Ok notes)
   <-> (forall n, In n db -> NoteORM.title n <> [] /\ NoteORM.content n <> []))
  /\ ((forall notes, fst (list_notes db) <> Ok notes)
      -> fst (list_notes db) = Fail InternalServerError).
Proof.
  intros Hr. unfold list_notes. simpl fst.
  pose proof (order_by_perm db) as Hperm.
  split; [split|].
  - intros [notes Hok] n Hin.
    apply (reachable_presentable db n Hr Hin).
    pose proof (validate_all_presentable _ _ Hok) as Hall.
    rewrite Forall_forall in Hall. apply Hall.
    now apply (Permutation_in _ Hperm).
  - intros Hall. exists (map from_attributes (order_by_updated_at_desc db)).
    apply validate_all_ok. apply (Permutation_Forall Hperm).
    apply Forall_forall. intros n Hin.
    apply (reachable_presentable db n Hr Hin). now apply Hall.
  - intros Hno.
    destruct (validate_all (order_by_updated_at_desc db)) as [os | e] eqn:E.
    + now destruct (Hno os).
    + now destruct (validate_all_fail _ _ E) as [-> _].
Qed.

Lemma list_notes_answers_iff_witness :
  reachable [groceries]
  /\ ((exists notes, fst (list_notes [groceries]) = Ok notes)
      <-> (forall n, In n [groceries] ->
             NoteORM.title n <> [] /\ NoteORM.content n <> [])).
Proof.
  split; [exact groceries_reachable|].
  exact (proj1 (list_notes_answers_iff [groceries] groceries_reachable)).
Defined.

(** X12.  On a table whose rows the response model accepts, List answers
    with every stored note exactly once, ordered by [updated_at]
    descending, and leaves the table as it is. *)
Theorem list_notes_all_newest_first (db : Table) :
  Forall presentable db ->
  exists l,
    list_notes db = (Ok (map from_attributes l), db)
    /\ Permutation db l
    /\ StronglySorted newer_or_equal l.
Proof.
  intros H. exists (order_by_updated_at_desc db). split; [|split].
  - unfold list_notes. rewrite validate_all_ok; [reflexivity|].
    apply (Permutation_Forall (order_by_perm db) H).
  - apply order_by_perm.
  - apply order_by_sorted.
Qed.

Lemma list_notes_all_newest_first_witness :
  let db := [groceries; NoteORM.mk 2 (py "b") (py "c") 200 200] in
  Forall presentable db
  /\ exists l,
       list_notes db = (Ok (map from_attributes l), db)
       /\ Permutation db l
       /\ StronglySorted newer_or_equal l.
Proof.
  intros db.
  assert (H : Forall presentable db) by (repeat constructor).
  split; [exact H|].
  exact (list_notes_all_newest_first db H).
Defined.

(** The row stamped later than every other row heads the listing. *)
Lemma latest_heads_listing (db : Table) (n : NoteORM.t) :
  Forall presentable db ->
  In n db ->
  (forall m, In m db ->
     m = n \/ NoteORM.updated_at m < NoteORM.updated_at n) ->
  exists rest, fst (list_notes db) = Ok (from_attributes n :: rest).
Proof.
  intros Hp Hin Hlate.
  unfold list_notes. simpl fst.
  rewrite validate_all_ok
    by (apply (Permutation_Forall (order_by_perm db) Hp)).
  pose proof (order_by_perm db) as Hperm.
  pose proof (order_by_sorted db) as Hs.
  assert (Hin' : In n (order_by_updated_at_desc db))
    by (now apply (Permutation_in _ Hperm)).
  destruct (order_by_updated_at_desc db) as [|h tl]; [destruct Hin'|].
  exists (map from_attributes tl). simpl. do 2 f_equal.
  assert (Hh : In h db)
    by (apply (Permutation_in _ (Permutation_sym Hperm)); now left).
  destruct (Hlate h Hh) as [E | Hlt]; [now rewrite E|]. exfalso.
  destruct Hin' as [E | Htl]; [subst; lia|].
  inversion Hs as [|x xs _ Hall]; subst.
  rewrite Forall_forall in Hall. specialize (Hall n Htl).
  unfold newer_or_equal in Hall. lia.
Qed.

(** X13.  A stored note whose [updated_at] is later than that of every
    other stored note comes first in the listing. *)
Theorem list_notes_latest_first (db : Table) (n : NoteORM.t) :
  Forall presentable db ->
  In n db ->
  (forall m, In m db ->
     m = n \/ NoteORM.updated_at m < NoteORM.updated_at n) ->
  exists rest, fst (list_notes db) = Ok (from_attributes n :: rest).
Proof. exact (latest_heads_listing db n). Qed.

Lemma list_notes_latest_first_witness :
  let late := NoteORM.mk 2 (py "b") (py "c") 200 300 in
  let db := [groceries; late] in
  Forall presentable db
  /\ In late db
  /\ exists rest, fst (list_notes db) = Ok (from_attributes late :: rest).
Proof.
  intros late db.
  assert (Hp : Forall presentable db) by (repeat constructor).
  assert (Hin : In late db) by (right; left; reflexivity).
  assert (Hl : forall m, In m db ->
                 m = late \/ NoteORM.updated_at m < NoteORM.updated_at late).
  { intros m [<- | [<- | []]]; [right; simpl; lia | now left]. }
  split; [exact Hp|]. split; [exact Hin|].
  exact (list_notes_latest_first db late Hp Hin Hl).
Defined.

Lemma query_first_stored (db : Table) (n : NoteORM.t) :
  unique_ids db -> In n db -> query_first (NoteORM.id n) db = Some n.
Proof.
  unfold unique_ids, query_first.
  induction db as [|m r IH]; simpl; [intros _ []|].
  intros Hnd Hin. inversion Hnd as [|x xs Hnin Hnd']; subst.
  destruct Hin as [-> | Hin]; [now rewrite Z.eqb_refl|].
  destruct (NoteORM.id m =? NoteORM.id n) eqn:E; [|now apply IH].
  exfalso. apply Hnin. rewrite in_map_iff. exists n. split; [lia | exact Hin].
Qed.

(** X14.  In a reachable state, Get by the id of a stored note whose title
    and content are not empty answers with exactly that note, field for
    field, and leaves the table as it is. *)
Theorem get_note_returns_stored (db : Table) (n : NoteORM.t) :
  reachable db ->
  In n db ->
  NoteORM.title n <> [] ->
  NoteORM.content n <> [] ->
  get_note (NoteORM.id n) db = (Ok (from_attributes n), db).
Proof.
  intros Hr Hin Ht Hc.
  pose proof (reachable_bounds db Hr) as Hb. rewrite Forall_forall in Hb.
  destruct (Hb n Hin) as [Hk _].
  unfold get_note, Path_ge_1.
  replace (1 <=? NoteORM.id n) with true by lia. simpl negb. cbv iota.
  rewrite (query_first_stored db n (reachable_unique_ids db Hr) Hin).
  rewrite model_validate_ok; [reflexivity|].
  now apply (reachable_presentable db n Hr Hin).
Qed.

Lemma get_note_returns_stored_witness :
  reachable [groceries]
  /\ In groceries [groceries]
  /\ get_note 1 [groceries] = (Ok (from_attributes groceries), [groceries]).
Proof.
  assert (Hin : In groceries [groceries]) by (left; reflexivity).
  assert (Ht : NoteORM.title groceries <> []) by discriminate.
  assert (Hc : NoteORM.content groceries <> []) by discriminate.
  split; [exact groceries_reachable|]. split; [exact Hin|].
  exact (get_note_returns_stored [groceries] groceries groceries_reachable
           Hin Ht Hc).
Defined.



(** ** Validation of a PATCH *)





(** ** Invariants of the stored rows *)

(** X17.  In every reachable state every stored title has at most 255
    characters, the width of the column. *)
Theorem stored_title_fits_column (db : Table) (n : NoteORM.t) :
  reachable db ->
  In n db ->
  len (NoteORM.title n) <= 255.
Proof.
  intros Hr Hin. pose proof (reachable_bounds db Hr) as Hb.
  rewrite Forall_forall in Hb. now destruct (Hb n Hin).
Qed.

Lemma stored_title_fits_column_witness :
  reachable [groceries]
  /\ In groceries [groceries]
  /\ len (NoteORM.title groceries) <= 255.
Proof.
  assert (Hin : In groceries [groceries]) by (left; reflexivity).
  split; [exact groceries_reachable|]. split; [exact Hin|].
  exact (stored_title_fits_column [groceries] groceries groceries_reachable Hin).
Defined.

(** X18.  In every reachable state the id is a key: two stored rows with
    the same id are the same row, and every stored id is at least 1. *)
Theorem stored_ids_are_keys (db : Table) (n m : NoteORM.t) :
  reachable db ->
  In n db ->
  In m db ->
  1 <= NoteORM.id n
  /\ (NoteORM.id n = NoteORM.id m -> n = m).
Proof.
  intros Hr Hn Hm. split.
  - pose proof (reachable_bounds db Hr) as Hb.
    rewrite Forall_forall in Hb. now destruct (Hb n Hn).
  - intros Hid. pose proof (reachable_unique_ids db Hr) as Hu.
    pose proof (query_first_stored db n Hu Hn) as H1.
    pose proof (query_first_stored db m Hu Hm) as H2.
    rewrite Hid in H1. congruence.
Qed.

Lemma stored_ids_are_keys_witness :
  let db := [groceries; NoteORM.mk 2 (py "b") (py "c") 200 200] in
  reachable db
  /\ In groceries db
  /\ In (NoteORM.mk 2 (py "b") (py "c") 200 200) db
  /\ 1 <= NoteORM.id groceries.
Proof.
  intros db.
  assert (Hr : reachable db).
  { exists [(100, Create (NoteCreate.mk (py "Groceries") (py "Milk, eggs")));
            (200, Create (NoteCreate.mk (py "b") (py "c")))]. reflexivity. }
  assert (Hn : In groceries db) by (left; reflexivity).
  assert (Hm : In (NoteORM.mk 2 (py "b") (py "c") 200 200) db)
    by (right; left; reflexivity).
  split; [exact Hr|]. split; [exact Hn|]. split; [exact Hm|].
  exact (proj1 (stored_ids_are_keys db groceries _ Hr Hn Hm)).
Defined.

Lemma trimmed_no_outer_whitespace (s : str) :
  strip s = s -> no_outer_whitespace s.
Proof.
  intros Hs. unfold no_outer_whitespace.
  assert (Hl : lstrip s = s).
  { rewrite <- Hs. unfold strip.
    destruct (lstrip_head s) as [E | (c & r & E & Hc)]; rewrite E.
    - reflexivity.
    - rewrite (rstrip_cons _ _ Hc). now apply lstrip_fixed. }
  assert (Hr : lstrip (rev s) = rev s).
  { assert (H : rstrip s = s)
      by (rewrite <- Hs; unfold strip; apply rstrip_idempotent).
    unfold rstrip in H. rewrite <- H at 2. now rewrite rev_involutive. }
  destruct s as [|c0 r0]; [now left|]. right. split.
  - destruct (lstrip_head (c0 :: r0)) as [E | (c & r & E & Hc)];
      rewrite Hl in E; [discriminate|]. now exists c, r.
  - destruct (lstrip_head (rev (c0 :: r0))) as [E | (c & r & E & Hc)];
      rewrite Hr in E.
    + apply (f_equal (@rev N)) in E. rewrite rev_involutive in E. discriminate.
    + exists (rev r), c. split; [|exact Hc].
      apply (f_equal (@rev N)) in E. rewrite rev_involutive in E. exact E.
Qed.

(** X19.  In every reachable state a stored title or content is empty or
    begins and ends with a character that is not whitespace. *)
Theorem stored_fields_have_no_outer_whitespace (db : Table) (n : NoteORM.t) :
  reachable db ->
  In n db ->
  no_outer_whitespace (NoteORM.title n)
  /\ no_outer_whitespace (NoteORM.content n).
Proof.
  intros Hr Hin. pose proof (reachable_trimmed db Hr) as H.
  rewrite Forall_forall in H. destruct (H n Hin) as [Ht Hc].
  split; now apply trimmed_no_outer_whitespace.
Qed.

Lemma stored_fields_have_no_outer_whitespace_witness :
  let db := run [(0, Create (NoteCreate.mk (py "   ") (py " x y ")))] [] in
  let n := NoteORM.mk 1 [] (py "x y") 0 0 in
  reachable db
  /\ In n db
  /\ no_outer_whitespace (NoteORM.title n)
  /\ no_outer_whitespace (NoteORM.content n).
Proof.
  intros db n.
  assert (Hr : reachable db) by (eexists; reflexivity).
  assert (Hin : In n db) by (left; reflexivity).
  split; [exact Hr|]. split; [exact Hin|].
  exact (stored_fields_have_no_outer_whitespace db n Hr Hin).
Defined.
